(** * EventData: the event model of the DVR client (src/core/EventData.cpp)

    A shallow embedding of [EventLevel], [EventType] and [EventData]:
    string-code parsing, duration handling, time-zone arithmetic on the
    start timestamp and the display strings built from them.

    Conventions.
    - [int], [uint], [qint16] and [qint64] values are [Z]; the one place
      where a value changes width ([toUInt] stored into the [int]
      location id) has its wrap-around written out ([int_of_uint]).
    - [QString] is [string] (the codes compared against are Latin-1).
    - [qWarning()] output is collected by a small writer monad ([Logged]).
    - [QDateTime] belongs to the toolkit, not to this repository; module
      [QDateTime] models the operations the event model calls. *)

From Stdlib Require Import ZArith String Ascii List Bool Lia DecimalString.
From Stdlib Require Import DecimalPos.
Import ListNotations.

Local Open Scope string_scope.
Local Open Scope Z_scope.

(* ------------------------------------------------------------------ *)
(** ** Toolkit strings *)

Module QString.

Definition isEmpty (s : string) : bool :=
  match s with EmptyString => true | String _ _ => false end.

(** [s.startsWith(p)] *)
Definition startsWith (s p : string) : bool := String.prefix p s.

(** [s.mid(n)]: the string from position [n] to the end. *)
Fixpoint mid (n : nat) (s : string) : string :=
  match n, s with
  | O, _ => s
  | S _, EmptyString => EmptyString
  | S k, String _ t => mid k t
  end.

(** [QString::number(n)] for an [int], base 10. *)
Definition number (n : Z) : string := NilZero.string_of_int (Z.to_int n).

Definition isDigit (c : ascii) : bool :=
  let k := nat_of_ascii c in (Nat.leb 48 k && Nat.leb k 57)%bool.

Definition digitValue (c : ascii) : Z := Z.of_nat (nat_of_ascii c) - 48.

(** Value of a run of decimal digits read left to right from [acc];
    [None] as soon as a character is not a digit. *)
Fixpoint digits (acc : Z) (s : string) : option Z :=
  match s with
  | EmptyString => Some acc
  | String c t =>
      if isDigit c then digits (10 * acc + digitValue c) t else None
  end.

Definition UINT_MAX : Z := 4294967295.

(** [s.toUInt(&ok)], base 10: [Some v] stands for [ok = true] with
    result [v], [None] for [ok = false].  The toolkit rejects the empty
    string, any character that is not part of a number and any value
    above [UINT_MAX].  It also tolerates surrounding white space and a
    leading plus sign; those inputs are left out of this model (they
    are rejected here), and every general statement below is made for
    an arbitrary conversion function, this one being used only to
    evaluate concrete inputs made of plain digits or of letters. *)
Definition toUInt (s : string) : option Z :=
  match s with
  | EmptyString => None
  | _ => match digits 0 s with
         | Some v => if v <=? UINT_MAX then Some v else None
         | None => None
         end
  end.

(** Number of occurrences of character [c] in [s]. *)
Fixpoint count (c : ascii) (s : string) : nat :=
  match s with
  | EmptyString => O
  | String a t => ((if Ascii.eqb a c then 1 else 0) + count c t)%nat
  end.

End QString.

(** Converting a [uint] to [int] (two's complement, 32 bits). *)
Definition int_of_uint (u : Z) : Z :=
  let m := u mod 4294967296 in
  if m <? 2147483648 then m else m - 4294967296.

Definition qMax (a b : Z) : Z := if a <? b then b else a.

(* ------------------------------------------------------------------ *)
(** ** Diagnostics: what [qWarning() << ...] writes *)

(** One item streamed into a [QDebug]: a C string literal is written as
    it is, a [QString] is written between quotes. *)
Inductive LogItem : Type :=
| Text (s : string)
| Quoted (s : string).

Definition LogLine : Type := list LogItem.

(** A computation that returns a value and the lines it logged. *)
Definition Logged (A : Type) : Type := (A * list LogLine)%type.

Definition ret {A} (a : A) : Logged A := (a, []).

Definition bind {A B} (m : Logged A) (k : A -> Logged B) : Logged B :=
  let (a, l1) := m in
  let (b, l2) := k a in (b, (l1 ++ l2)%list).

Definition qWarning (line : LogLine) : Logged unit := (tt, [line]).

Definition value {A} (m : Logged A) : A := fst m.
Definition logged {A} (m : Logged A) : list LogLine := snd m.

Infix "==" := String.eqb (at level 70, no associativity).

Notation "m ;; k" := (bind m (fun _ => k))
  (at level 61, right associativity).

(** [QApplication::translate(context, sourceText)]. *)
Definition Translator : Type := string -> string -> string.

(** No translation installed: the source text is returned. *)
Definition sourceText : Translator := fun _ s => s.

(* ------------------------------------------------------------------ *)
(** ** Toolkit colours *)

Module QColor.

(** [QColor(r, g, b)]. *)
Record t : Type := rgb { red : Z; green : Z; blue : Z }.

(** [QColor(Qt::black)]. *)
Definition black : t := rgb 0 0 0.

Definition eqb (a b : t) : bool :=
  (red a =? red b) && (green a =? green b) && (blue a =? blue b).

End QColor.

(* ------------------------------------------------------------------ *)
(** ** EventLevel *)

Module EventLevel.

(** Modelled from the spec: the enumeration is declared in EventData.h,
    which is not among the sources; these are the levels the spec lists
    and the [switch] of [uiString] names.  Its [default] branch
    ("Unknown") is for values outside the enumeration and has no
    counterpart here. *)
Inductive Level : Type := Info | Warning | Alarm | Critical.

Definition uiString (translate : Translator) (level : Level) : string :=
  match level with
  | Info => translate "EventLevel" "Info"
  | Warning => translate "EventLevel" "Warning"
  | Alarm => translate "EventLevel" "Alarm"
  | Critical => translate "EventLevel" "Critical"
  end.

(** [EventLevel::uiColor(bool graphical)]; the [default] branch (black)
    is for values outside the enumeration. *)
Definition uiColor (graphical : bool) (level : Level) : QColor.t :=
  match level with
  | Info => QColor.rgb 122 122 122
  | Warning => if graphical then QColor.rgb 62 107 199 else QColor.black
  | Alarm => QColor.rgb 204 120 10
  | Critical => QColor.rgb 175 0 0
  end.

(** [EventLevel::operator=(const QString &)].  The function has no
    logging statement. *)
Definition assign (str : string) : Logged Level :=
  if (str == "info") then ret Info
  else if (str == "warn") then ret Warning
  else if (str == "alrm") || (str == "alarm") then ret Alarm
  else if (str == "critical") then ret Critical
  else ret Info.

(** The codes [assign] tests for. *)
Definition codes : list string :=
  ["info"; "warn"; "alrm"; "alarm"; "critical"].

End EventLevel.

(* ------------------------------------------------------------------ *)
(** ** EventType *)

Module EventType.

(** Modelled from the spec: the enumeration is declared in EventData.h,
    which is not among the sources; these are the event kinds the
    [switch] of [uiString] names. *)
Inductive Type_ : Type :=
| UnknownType
| CameraMotion | CameraContinuous | CameraNotFound
| CameraVideoLost | CameraAudioLost
| SystemDiskSpace | SystemCrash | SystemBoot
| SystemShutdown | SystemReboot | SystemPowerOutage.

Definition uiString (translate : Translator) (type : Type_) : string :=
  match type with
  | CameraMotion => translate "EventType" "Motion"
  | CameraContinuous => translate "EventType" "Continuous"
  | CameraNotFound => translate "EventType" "Not Found"
  | CameraVideoLost => translate "EventType" "Video Lost"
  | CameraAudioLost => translate "EventType" "Audio Lost"
  | SystemDiskSpace => translate "EventType" "Disk Space"
  | SystemCrash => translate "EventType" "Crash"
  | SystemBoot => translate "EventType" "Startup"
  | SystemShutdown => translate "EventType" "Shutdown"
  | SystemReboot => translate "EventType" "Reboot"
  | SystemPowerOutage => translate "EventType" "Power Lost"
  | UnknownType => translate "EventType" "Unknown"
  end.

(** [EventType::operator=(const QString &)].  The function has no
    logging statement. *)
Definition assign (str : string) : Logged Type_ :=
  if (str == "motion") then ret CameraMotion
  else if (str == "continuous") then ret CameraContinuous
  else if (str == "not found") then ret CameraNotFound
  else if (str == "video signal loss") then ret CameraVideoLost
  else if (str == "audio signal loss") then ret CameraAudioLost
  else if (str == "disk-space") then ret SystemDiskSpace
  else if (str == "crash") then ret SystemCrash
  else if (str == "boot") then ret SystemBoot
  else if (str == "shutdown") then ret SystemShutdown
  else if (str == "reboot") then ret SystemReboot
  else if (str == "power-outage") then ret SystemPowerOutage
  else ret UnknownType.

Definition codes : list string :=
  ["motion"; "continuous"; "not found"; "video signal loss";
   "audio signal loss"; "disk-space"; "crash"; "boot"; "shutdown";
   "reboot"; "power-outage"].

End EventType.

(* ------------------------------------------------------------------ *)
(** ** Toolkit date-times *)

Module QDateTime.

Inductive TimeSpec : Type := LocalTime | UTC | OffsetFromUTC.

(** A date-time is kept as the instant it denotes ([msecs] since the
    epoch, counted in UTC) together with the time spec it is displayed
    in; [offset] (seconds east of UTC) is used by [OffsetFromUTC] and
    is 0 otherwise. *)
Record t : Type := mk { msecs : Z; timeSpec : TimeSpec; offset : Z }.

Section Zone.

(** The system time zone: seconds east of UTC at a given instant. *)
Variable localOffset : Z -> Z.

(** [utcOffset()]: how far the displayed time is ahead of UTC. *)
Definition utcOffset (dt : t) : Z :=
  match timeSpec dt with
  | UTC => 0
  | OffsetFromUTC => offset dt
  | LocalTime => localOffset (msecs dt)
  end.

(** The date and time of day the value displays, in milliseconds. *)
Definition wallClock (dt : t) : Z := msecs dt + 1000 * utcOffset dt.

(** [setUtcOffset(seconds)]: the displayed date and time are kept and
    read at the new offset, so the value denotes another instant;
    offset 0 gives time spec [UTC]. *)
Definition setUtcOffset (seconds : Z) (dt : t) : t :=
  let w := wallClock dt in
  if seconds =? 0 then mk w UTC 0
  else mk (w - 1000 * seconds) OffsetFromUTC seconds.

End Zone.

(** [addSecs(s)]: a new value [s] seconds later, same time spec. *)
Definition addSecs (s : Z) (dt : t) : t :=
  mk (msecs dt + 1000 * s) (timeSpec dt) (offset dt).

(** [toLocalTime()]: the same instant displayed in the system zone. *)
Definition toLocalTime (dt : t) : t := mk (msecs dt) LocalTime 0.

Definition specEqb (a b : TimeSpec) : bool :=
  match a, b with
  | LocalTime, LocalTime | UTC, UTC | OffsetFromUTC, OffsetFromUTC => true
  | _, _ => false
  end.

End QDateTime.

(* ------------------------------------------------------------------ *)
(** ** Servers and cameras *)

Module DVRServer.

(** Modelled from the spec: DVRCamera and DVRServer are declared in
    camera/DVRCamera.h and server/DVRServer.h, which are not among the
    sources.  The event model reads three things from them: the display
    name of a camera ([camera->data().displayName()]), the display name
    of a server ([server->configuration().displayName()]) and the lookup
    of a camera by location id ([server->getCamera(id)], a null pointer
    when the server has no such camera). *)
Record DVRCamera : Type := { cameraDisplayName : string }.

Record t : Type := {
  displayName : string;
  getCamera : Z -> option DVRCamera
}.

End DVRServer.

(* ------------------------------------------------------------------ *)
(** ** EventData *)

Module EventData.

Import QDateTime.

(** Modelled from the spec: the class declaration (EventData.h) is not
    among the sources.  The fields are those of the spec's data model,
    which are also the ones the setters of the source file assign:
    identifiers ([qint64]), level, type, the UTC and the local start
    date, the signed duration in seconds ([int]), the integer location
    id ([int], as the parameter of [setLocationId]) and the server's
    time-zone offset in minutes ([qint16]).  The pointer to the
    originating server is left out: only [uiServer], [locationCamera]
    and [uiLocation] read it. *)
Record t : Type := mk {
  m_eventId : Z;
  m_mediaId : Z;
  m_level : EventLevel.Level;
  m_type : EventType.Type_;
  m_utcStartDate : QDateTime.t;
  m_localStartDate : QDateTime.t;
  m_durationInSeconds : Z;
  m_locationId : Z;
  m_serverDateTzOffsetMins : Z
}.

(** Modelled from the spec: the getters are defined in EventData.h; each
    returns its field. *)
Definition durationInSeconds (e : t) : Z := m_durationInSeconds e.
Definition locationId (e : t) : Z := m_locationId e.
Definition utcStartDate (e : t) : QDateTime.t := m_utcStartDate e.
Definition localStartDate (e : t) : QDateTime.t := m_localStartDate e.
Definition serverDateTzOffsetMins (e : t) : Z := m_serverDateTzOffsetMins e.

(** Assignment to [m_durationInSeconds]. *)
Definition with_duration (d : Z) (e : t) : t :=
  mk (m_eventId e) (m_mediaId e) (m_level e) (m_type e)
     (m_utcStartDate e) (m_localStartDate e) d (m_locationId e)
     (m_serverDateTzOffsetMins e).

Definition setLocationId (locationId : Z) (e : t) : t :=
  mk (m_eventId e) (m_mediaId e) (m_level e) (m_type e)
     (m_utcStartDate e) (m_localStartDate e) (m_durationInSeconds e)
     locationId (m_serverDateTzOffsetMins e).

Definition setServerDateTzOffsetMins (dateTzOffsetMins : Z) (e : t) : t :=
  mk (m_eventId e) (m_mediaId e) (m_level e) (m_type e)
     (m_utcStartDate e) (m_localStartDate e) (m_durationInSeconds e)
     (m_locationId e) dateTzOffsetMins.

Definition setUtcStartDate (utcStartDate : QDateTime.t) (e : t) : t :=
  mk (m_eventId e) (m_mediaId e) (m_level e) (m_type e)
     utcStartDate (toLocalTime utcStartDate) (m_durationInSeconds e)
     (m_locationId e) (m_serverDateTzOffsetMins e).

Definition setLevel (level : EventLevel.Level) (e : t) : t :=
  mk (m_eventId e) (m_mediaId e) level (m_type e)
     (m_utcStartDate e) (m_localStartDate e) (m_durationInSeconds e)
     (m_locationId e) (m_serverDateTzOffsetMins e).

Definition setType (type : EventType.Type_) (e : t) : t :=
  mk (m_eventId e) (m_mediaId e) (m_level e) type
     (m_utcStartDate e) (m_localStartDate e) (m_durationInSeconds e)
     (m_locationId e) (m_serverDateTzOffsetMins e).

Definition setEventId (eventId : Z) (e : t) : t :=
  mk eventId (m_mediaId e) (m_level e) (m_type e)
     (m_utcStartDate e) (m_localStartDate e) (m_durationInSeconds e)
     (m_locationId e) (m_serverDateTzOffsetMins e).

Definition setMediaId (mediaId : Z) (e : t) : t :=
  mk (m_eventId e) mediaId (m_level e) (m_type e)
     (m_utcStartDate e) (m_localStartDate e) (m_durationInSeconds e)
     (m_locationId e) (m_serverDateTzOffsetMins e).

Definition hasDuration (e : t) : bool := 0 <? durationInSeconds e.

Definition setDurationInSeconds (durationInSeconds : Z) (e : t) : t :=
  if durationInSeconds <? -1 then with_duration (-1) e
  else with_duration durationInSeconds e.

Definition inProgress (e : t) : bool := durationInSeconds e <? 0.

Definition setInProgress (e : t) : t := setDurationInSeconds (-1) e.

Definition localEndDate (e : t) : QDateTime.t :=
  addSecs (qMax 0 (m_durationInSeconds e)) (m_localStartDate e).

Section Environment.

Variable localOffset : Z -> Z.

(** [None] stands for the failed [Q_ASSERT] on the time spec of the
    stored UTC start date. *)
Definition serverStartDate (e : t) : option QDateTime.t :=
  if specEqb (timeSpec (m_utcStartDate e)) UTC then
    let dateTzOffsetSeconds := serverDateTzOffsetMins e * 60 in
    let result := addSecs dateTzOffsetSeconds (m_utcStartDate e) in
    let result := setUtcOffset localOffset dateTzOffsetSeconds result in
    Some result
  else None.

(** The value of [result.addSecs(...)] is not assigned to anything:
    [addSecs] is a const member that returns a new date-time. *)
Definition serverEndDate (e : t) : option QDateTime.t :=
  match serverStartDate e with
  | None => None
  | Some result =>
      if negb (hasDuration e) then Some result
      else
        let _ := addSecs (qMax 0 (m_durationInSeconds e)) result in
        Some result
  end.

(** The conversion behind [QString::toUInt]. *)
Variable toUInt : string -> option Z.

Definition invalidLocation (location : string) : LogLine :=
  [Text "Invalid event location"; Quoted location].

Definition setLocation (location : string) (e : t) : Logged t :=
  if QString.startsWith location "camera-" then
    match toUInt (QString.mid 7 location) with
    | Some v => ret (setLocationId (int_of_uint v) e)
    | None =>
        qWarning (invalidLocation location) ;;
        ret (setLocationId (-1) e)
    end
  else if negb (location == "system") then
    qWarning (invalidLocation location) ;;
    ret (setLocationId (-1) e)
  else ret (setLocationId (-1) e).

End Environment.

(** [durationWord(s, n, w)], returning the new value of [s]. *)
Definition durationWord (s : string) (n : Z) (w : string) : string :=
  let s := if negb (QString.isEmpty s) then s ++ ", " else s in
  let s := s ++ QString.number n in
  let s := s ++ " " in
  let s := s ++ w in
  if negb (n =? 1) then s ++ "s" else s.

(** The last block of [uiDuration]: the seconds. *)
Definition uiDuration_seconds (re : string) (d : Z) : string :=
  if negb (d =? 0) || QString.isEmpty re
  then durationWord re d "second" else re.

(** The minutes block and what follows it. *)
Definition uiDuration_minutes (re : string) (d count : Z) : string :=
  if 60 <=? d then
    let re := durationWord re (Z.quot d 60) "minute" in
    let d := Z.rem d 60 in
    let count := count + 1 in
    if count =? 2 then re else uiDuration_seconds re d
  else uiDuration_seconds re d.

(** The hours block and what follows it. *)
Definition uiDuration_hours (re : string) (d count : Z) : string :=
  if 3600 <=? d then
    let re := durationWord re (Z.quot d 3600) "hour" in
    let d := Z.rem d 3600 in
    let count := count + 1 in
    if count =? 2 then re else uiDuration_minutes re d count
  else uiDuration_minutes re d count.

Definition uiDuration (translate : Translator) (e : t) : string :=
  if inProgress e then translate "EventData" "In progress"
  else
    let re := "" in
    let d := qMax 1 (durationInSeconds e) in
    let count := 0 in
    if 86400 <=? d then
      let re := durationWord re (Z.quot d 86400) "day" in
      let d := Z.rem d 86400 in
      let count := count + 1 in
      uiDuration_hours re d count
    else uiDuration_hours re d count.

(** [uiServer()]; the event's server pointer ([None] when null) is
    passed as an argument, the record having no field for it. *)
Definition uiServer (server : option DVRServer.t) : string :=
  match server with
  | Some srv => DVRServer.displayName srv
  | None => ""
  end.

(** [locationCamera()], with the server pointer as an argument. *)
Definition locationCamera (server : option DVRServer.t) (e : t)
  : option DVRServer.DVRCamera :=
  match server with
  | Some srv => DVRServer.getCamera srv (locationId e)
  | None => None
  end.

(** The static [uiLocation(DVRServer *server, int locationId)];
    ["camera-%1".arg(locationId)] puts the decimal form of the id in
    place of the marker. *)
Definition uiLocation (translate : Translator)
    (server : option DVRServer.t) (locationId : Z) : string :=
  match server with
  | None => ""
  | Some srv =>
      match DVRServer.getCamera srv locationId with
      | Some camera => DVRServer.cameraDisplayName camera
      | None =>
          if locationId <? 0 then translate "EventData" "System"
          else "camera-" ++ QString.number locationId
      end
  end.

(** An event with every field at zero, level Info, unknown type and
    both dates at the epoch in UTC. *)
Definition blank : t :=
  mk 0 0 EventLevel.Info EventType.UnknownType
     (QDateTime.mk 0 UTC 0) (QDateTime.mk 0 LocalTime 0) 0 0 0.

End EventData.

Definition ofDuration (d : Z) : EventData.t :=
  EventData.setDurationInSeconds d EventData.blank.

(* ------------------------------------------------------------------ *)
(** ** Vocabulary of the statements *)

(** The location strings [setLocation] accepts without a warning: the
    literal [system], and [camera-] followed by a suffix the conversion
    accepts. *)
Definition recognizedLocation (toUInt : string -> option Z)
                              (location : string) : bool :=
  if QString.startsWith location "camera-" then
    match toUInt (QString.mid 7 location) with
    | Some _ => true
    | None => false
    end
  else location == "system".

(** The terms of a duration string. *)
Inductive TimeUnit : Type := Day | Hour | Minute | Second.

Definition unitWord (u : TimeUnit) : string :=
  match u with
  | Day => "day"
  | Hour => "hour"
  | Minute => "minute"
  | Second => "second"
  end.

(** The string [durationWord] builds from a list of terms, in order. *)
Definition render (terms : list (Z * TimeUnit)) : string :=
  fold_left (fun s t => EventData.durationWord s (fst t) (unitWord (snd t)))
            terms "".

Definition commas (s : string) : nat := QString.count "," s.

(** Level and type codes with the display names the source text gives. *)
Definition levelNames : list (string * string) :=
  [("info", "Info"); ("warn", "Warning"); ("alrm", "Alarm");
   ("critical", "Critical")].

Definition typeNames : list (string * string) :=
  [("motion", "Motion"); ("continuous", "Continuous");
   ("not found", "Not Found"); ("video signal loss", "Video Lost");
   ("audio signal loss", "Audio Lost"); ("disk-space", "Disk Space");
   ("crash", "Crash"); ("boot", "Startup"); ("shutdown", "Shutdown");
   ("reboot", "Reboot"); ("power-outage", "Power Lost")].

(** Seconds in one unit. *)
Definition unitSeconds (u : TimeUnit) : Z :=
  match u with
  | Day => 86400
  | Hour => 3600
  | Minute => 60
  | Second => 1
  end.

(** The duration a list of terms stands for, in seconds. *)
Definition termsValue (terms : list (Z * TimeUnit)) : Z :=
  fold_right (fun t acc => fst t * unitSeconds (snd t) + acc) 0 terms.

(** A count that can be shown with its unit: at least 1, and below the
    number of such units in the next larger one. *)
Definition properTerm (t : Z * TimeUnit) : Prop :=
  1 <= fst t
  /\ match snd t with
     | Day => True
     | Hour => fst t < 24
     | Minute | Second => fst t < 60
     end.

(** Larger units come first, none twice. *)
Fixpoint descending (terms : list (Z * TimeUnit)) : Prop :=
  match terms with
  | [] => True
  | t :: rest =>
      Forall (fun r => unitSeconds (snd r) < unitSeconds (snd t)) rest
      /\ descending rest
  end.

(** The unit of the last term (seconds for no term). *)
Definition lastUnit (terms : list (Z * TimeUnit)) : TimeUnit :=
  snd (last terms (0, Second)).

(** A server that knows no camera, and one that knows a camera at
    location 3. *)
Definition emptyServer : DVRServer.t :=
  {| DVRServer.displayName := "garage"; DVRServer.getCamera := fun _ => None |}.

Definition oneCameraServer : DVRServer.t :=
  {| DVRServer.displayName := "garage";
     DVRServer.getCamera := fun id =>
       if id =? 3 then Some {| DVRServer.cameraDisplayName := "Front door" |}
       else None |}.

(** The value [digits] computes along a decimal numeral. *)
Fixpoint uintValue (acc : Z) (u : Decimal.uint) : Z :=
  match u with
  | Decimal.Nil => acc
  | Decimal.D0 l => uintValue (10 * acc + 0) l
  | Decimal.D1 l => uintValue (10 * acc + 1) l
  | Decimal.D2 l => uintValue (10 * acc + 2) l
  | Decimal.D3 l => uintValue (10 * acc + 3) l
  | Decimal.D4 l => uintValue (10 * acc + 4) l
  | Decimal.D5 l => uintValue (10 * acc + 5) l
  | Decimal.D6 l => uintValue (10 * acc + 6) l
  | Decimal.D7 l => uintValue (10 * acc + 7) l
  | Decimal.D8 l => uintValue (10 * acc + 8) l
  | Decimal.D9 l => uintValue (10 * acc + 9) l
  end.

(** A server whose camera at location 3 has no display name. *)
Definition namelessCameraServer : DVRServer.t :=
  {| DVRServer.displayName := "garage";
     DVRServer.getCamera := fun id =>
       if id =? 3 then Some {| DVRServer.cameraDisplayName := "" |}
       else None |}.

(** A fixed zone, one hour east of UTC, for concrete evaluations. *)
Definition plusOneHour : Z -> Z := fun _ => 3600.

(** One second after the epoch, in UTC and in local time. *)
Definition utcSample : QDateTime.t := QDateTime.mk 1000 QDateTime.UTC 0.
Definition localSample : QDateTime.t := QDateTime.mk 1000 QDateTime.LocalTime 0.

(** An event started at [utcSample] on a server five hours west of UTC. *)
Definition westEvent : EventData.t :=
  EventData.setServerDateTzOffsetMins (-300)
    (EventData.setUtcStartDate utcSample EventData.blank).

(* ------------------------------------------------------------------ *)
(** ** Strings: counting and emptiness *)

Section StringFacts.

Import QString.

Lemma count_app c a b : count c (a ++ b) = (count c a + count c b)%nat.
Proof.
  induction a as [|x a IH]; simpl; [reflexivity|].
  rewrite IH. apply Nat.add_assoc.
Qed.

Lemma count_cons c a t :
  count c (String a t) = ((if Ascii.eqb a c then 1 else 0) + count c t)%nat.
Proof. reflexivity. Qed.

Lemma isEmpty_app a b : isEmpty (a ++ b) = isEmpty a && isEmpty b.
Proof. destruct a; reflexivity. Qed.

Lemma count_uint c (u : Decimal.uint) :
  isDigit c = false -> count c (NilEmpty.string_of_uint u) = O.
Proof.
  intros Hc.
  induction u; cbn [NilEmpty.string_of_uint]; try reflexivity;
    rewrite count_cons, IHu;
    match goal with
    | |- ((if Ascii.eqb ?a c then _ else _) + _)%nat = _ =>
        destruct (Ascii.eqb_spec a c) as [E|_];
        [subst c; discriminate Hc | reflexivity]
    end.
Qed.

Lemma count_number n : count "," (number n) = O.
Proof.
  unfold number, NilZero.string_of_int.
  destruct (Z.to_int n) as [u|u]; unfold NilZero.string_of_uint;
    destruct u; simpl; try reflexivity;
    try (apply count_uint; reflexivity).
Qed.

End StringFacts.

(* ------------------------------------------------------------------ *)
(** ** durationWord *)

Section DurationWordFacts.

Import QString EventData.

Lemma durationWord_nonempty s n w : isEmpty (durationWord s n w) = false.
Proof.
  unfold durationWord.
  destruct (negb (n =? 1)); rewrite ?isEmpty_app; simpl;
    rewrite ?andb_false_r; reflexivity.
Qed.

Lemma commas_durationWord s n u :
  commas (durationWord s n (unitWord u))
  = (commas s + (if isEmpty s then 0 else 1))%nat.
Proof.
  unfold commas, durationWord.
  destruct (isEmpty s), (negb (n =? 1)); simpl negb; cbv iota;
    rewrite ?count_app, count_number; destruct u; simpl; lia.
Qed.

Lemma qMax_spec a b : qMax a b = Z.max a b.
Proof. unfold qMax. destruct (Z.ltb_spec a b); lia. Qed.

End DurationWordFacts.

(* ------------------------------------------------------------------ *)
(** ** Durations *)

(** C1, as the code has it: the duration is raised to at least one second
    before it is formatted, so a duration of 0 seconds formats as
    "1 second"; 90 seconds formats as "1 minute, 30 seconds" and 86400
    seconds as "1 day".  This holds whatever the other fields of the event
    and the translator are. *)
Theorem uiDuration_boundaries (translate : Translator) (e : EventData.t) :
  EventData.uiDuration translate (EventData.setDurationInSeconds 0 e)
    = "1 second"
  /\ EventData.uiDuration translate (EventData.setDurationInSeconds 90 e)
    = "1 minute, 30 seconds"
  /\ EventData.uiDuration translate (EventData.setDurationInSeconds 86400 e)
    = "1 day".
Proof. repeat split; reflexivity. Qed.

(** C1 fails as stated: a duration of 0 seconds does not format as
    "0 seconds". *)
Lemma uiDuration_zero_is_not_0_seconds :
  EventData.durationInSeconds (ofDuration 0) = 0
  /\ EventData.inProgress (ofDuration 0) = false
  /\ EventData.uiDuration sourceText (ofDuration 0) <> "0 seconds".
Proof. repeat split. vm_compute. discriminate. Qed.

(** C4: after [setDurationInSeconds d] the stored duration is
    [max d (-1)], hence never below -1; [setInProgress] stores -1; and
    [inProgress] holds exactly for negative stored durations, which after
    the setter means exactly for -1. *)
Theorem setDurationInSeconds_clamps (d : Z) (e : EventData.t) :
  EventData.durationInSeconds (EventData.setDurationInSeconds d e)
    = Z.max d (-1)
  /\ -1 <= EventData.durationInSeconds (EventData.setDurationInSeconds d e)
  /\ EventData.durationInSeconds (EventData.setInProgress e) = -1
  /\ EventData.inProgress (EventData.setInProgress e) = true
  /\ (EventData.inProgress e = true <-> EventData.durationInSeconds e < 0)
  /\ (EventData.inProgress (EventData.setDurationInSeconds d e) = true
      <-> EventData.durationInSeconds (EventData.setDurationInSeconds d e)
          = -1).
Proof.
  assert (Hd : EventData.durationInSeconds
                 (EventData.setDurationInSeconds d e) = Z.max d (-1)).
  { unfold EventData.setDurationInSeconds.
    destruct (Z.ltb_spec d (-1)); simpl; lia. }
  unfold EventData.inProgress.
  rewrite Hd.
  repeat split; try reflexivity; try lia;
    try (intros H; apply Z.ltb_lt in H; lia);
    try (intros H; apply Z.ltb_lt; lia).
Qed.

(** The other fields are left alone by the duration setter. *)
Lemma setDurationInSeconds_frame (d : Z) (e : EventData.t) :
  EventData.setDurationInSeconds d e = EventData.with_duration (Z.max d (-1)) e.
Proof.
  unfold EventData.setDurationInSeconds.
  destruct (Z.ltb_spec d (-1)); f_equal; lia.
Qed.

(** C9: [hasDuration] holds exactly for a stored duration above 0 and
    [inProgress] exactly for one below 0; with a stored duration of 0
    both are false and the local end date is the local start date. *)
Theorem zero_duration_is_neither (e : EventData.t) :
  (EventData.hasDuration e = true <-> 0 < EventData.durationInSeconds e)
  /\ (EventData.inProgress e = true <-> EventData.durationInSeconds e < 0)
  /\ (EventData.durationInSeconds e = 0 ->
      EventData.hasDuration e = false
      /\ EventData.inProgress e = false
      /\ EventData.localEndDate e = EventData.localStartDate e).
Proof.
  unfold EventData.hasDuration, EventData.inProgress.
  split; [apply Z.ltb_lt|]. split; [apply Z.ltb_lt|].
  intros H0. rewrite H0. repeat split.
  unfold EventData.localEndDate, EventData.localStartDate.
  unfold EventData.durationInSeconds in H0. rewrite H0.
  destruct (EventData.m_localStartDate e) as [ms sp off].
  unfold QDateTime.addSecs; simpl. f_equal. lia.
Qed.

Lemma zero_duration_is_neither_witness :
  EventData.durationInSeconds (ofDuration 0) = 0
  /\ EventData.hasDuration (ofDuration 0) = false
  /\ EventData.inProgress (ofDuration 0) = false
  /\ EventData.localEndDate (ofDuration 0)
     = EventData.localStartDate (ofDuration 0).
Proof.
  split; [reflexivity|].
  apply (proj2 (proj2 (zero_duration_is_neither (ofDuration 0)))).
  reflexivity.
Defined.

(** Case analysis for the blocks of [uiDuration]: split on each size
    test, settle [re.isEmpty()] on what [durationWord] built. *)
Ltac duration_blocks :=
  repeat match goal with
    | |- context [if ?a <=? ?b then _ else _] => destruct (a <=? b)
    | |- context [QString.isEmpty (EventData.durationWord _ _ _)] =>
        rewrite durationWord_nonempty
    | |- context [negb (?a =? 0)] => destruct (a =? 0)
    | _ => progress cbn [negb orb QString.isEmpty Z.add Z.eqb Pos.add
                         Pos.succ Pos.eqb]
    end.

Tactic Notation "emits" uconstr(terms) :=
  solve [eexists terms; split; [simpl; lia | reflexivity]].

(** The terms [uiDuration] emits for a duration that is not in progress. *)
Lemma uiDuration_terms (translate : Translator) (e : EventData.t) :
  EventData.inProgress e = false ->
  exists terms,
    (1 <= length terms <= 2)%nat
    /\ EventData.uiDuration translate e = render terms.
Proof.
  intros Hp. unfold EventData.uiDuration. rewrite Hp.
  unfold EventData.uiDuration_hours, EventData.uiDuration_minutes,
    EventData.uiDuration_seconds.
  cbv zeta.
  duration_blocks;
    first
      [ emits [(_, Day); (_, Hour)]
      | emits [(_, Day); (_, Minute)]
      | emits [(_, Day); (_, Second)]
      | emits [(_, Day)]
      | emits [(_, Hour); (_, Minute)]
      | emits [(_, Hour); (_, Second)]
      | emits [(_, Hour)]
      | emits [(_, Minute); (_, Second)]
      | emits [(_, Minute)]
      | emits [(_, Second)] ].
Qed.

Lemma commas_fold terms : forall s,
  QString.isEmpty s = false ->
  commas (fold_left
            (fun s t => EventData.durationWord s (fst t) (unitWord (snd t)))
            terms s)
  = (commas s + length terms)%nat.
Proof.
  induction terms as [|t terms IH]; intros s Hs; simpl.
  - lia.
  - rewrite IH by apply durationWord_nonempty.
    rewrite commas_durationWord, Hs. lia.
Qed.

(** A rendered list of terms has one separator between neighbours. *)
Lemma commas_render terms : commas (render terms) = pred (length terms).
Proof.
  destruct terms as [|t terms]; [reflexivity|].
  unfold render; simpl.
  rewrite commas_fold by apply durationWord_nonempty.
  rewrite commas_durationWord. reflexivity.
Qed.

(** C10: for a duration that is not in progress, [uiDuration] returns one
    or two time-unit terms (so at most one separating comma).  Once two
    of the day, hour and minute terms are written the function returns:
    days and hours drop minutes and seconds, days and minutes drop the
    seconds, hours and minutes drop the seconds.  1 day, 1 hour, 1 minute
    and 1 second (90061 s) formats as "1 day, 1 hour". *)
Theorem uiDuration_at_most_two_terms
    (translate : Translator) (e : EventData.t) :
  EventData.inProgress e = false ->
  let d := qMax 1 (EventData.durationInSeconds e) in
  let shown := EventData.uiDuration translate e in
  (exists terms,
      (1 <= length terms <= 2)%nat
      /\ shown = render terms
      /\ commas shown = pred (length terms))
  /\ (commas shown <= 1)%nat
  /\ (86400 <= d -> 3600 <= Z.rem d 86400 ->
      shown = render [(Z.quot d 86400, Day);
                      (Z.quot (Z.rem d 86400) 3600, Hour)])
  /\ (86400 <= d -> Z.rem d 86400 < 3600 -> 60 <= Z.rem d 86400 ->
      shown = render [(Z.quot d 86400, Day);
                      (Z.quot (Z.rem d 86400) 60, Minute)])
  /\ (d < 86400 -> 3600 <= d -> 60 <= Z.rem d 3600 ->
      shown = render [(Z.quot d 3600, Hour);
                      (Z.quot (Z.rem d 3600) 60, Minute)])
  /\ EventData.uiDuration translate (EventData.setDurationInSeconds 90061 e)
     = "1 day, 1 hour".
Proof.
  intros Hp d shown.
  destruct (uiDuration_terms translate e Hp) as (terms & Hlen & Hr).
  assert (Hc : commas shown = pred (length terms)).
  { subst shown. rewrite Hr. apply commas_render. }
  split; [exists terms; auto|].
  split; [lia|].
  subst shown. unfold EventData.uiDuration. rewrite Hp.
  fold d. clearbody d. cbv zeta.
  unfold EventData.uiDuration_hours, EventData.uiDuration_minutes.
  cbv zeta.
  repeat split; try reflexivity; intros;
    repeat match goal with
      | H : ?a <= ?b |- _ => apply Z.leb_le in H; rewrite H; clear H
      | H : ?a < ?b |- _ => apply Z.leb_gt in H; rewrite H; clear H
      end; reflexivity.
Qed.

Lemma uiDuration_at_most_two_terms_witness :
  EventData.inProgress (ofDuration 90061) = false
  /\ (commas (EventData.uiDuration sourceText (ofDuration 90061)) <= 1)%nat
  /\ EventData.uiDuration sourceText (ofDuration 90061)
     = render [(1, Day); (1, Hour)].
Proof.
  split; [reflexivity|].
  destruct (uiDuration_at_most_two_terms sourceText (ofDuration 90061)
              eq_refl) as (_ & Hc & Hdh & _).
  split; [exact Hc|].
  apply Hdh; vm_compute; discriminate.
Defined.

(* ------------------------------------------------------------------ *)
(** ** Start and end dates *)

Section Dates.

Import QDateTime.

Variable localOffset : Z -> Z.

Lemma specEqb_UTC sp : specEqb sp UTC = true <-> sp = UTC.
Proof. destruct sp; simpl; split; congruence. Qed.

(** The assertion of [serverStartDate] holds exactly when the stored
    UTC start date has time spec UTC. *)
Lemma serverStartDate_defined (e : EventData.t) :
  EventData.serverStartDate localOffset e <> None
  <-> timeSpec (EventData.utcStartDate e) = UTC.
Proof.
  unfold EventData.serverStartDate, EventData.utcStartDate.
  rewrite <- specEqb_UTC.
  destruct (specEqb _ UTC); split; congruence.
Qed.

(** What [serverEndDate] throws away differs from what it returns as
    soon as the event has a duration. *)
Lemma addSecs_moves (s : Z) (dt : QDateTime.t) :
  0 < s -> addSecs (qMax 0 s) dt <> dt.
Proof.
  intros Hs E. apply (f_equal msecs) in E.
  unfold addSecs in E. cbn [msecs] in E.
  pose proof (qMax_spec 0 s). lia.
Qed.

End Dates.

(** C5: [serverEndDate] returns what [serverStartDate] returns, for every
    event and whatever its duration: the date-time computed by adding the
    duration is not kept, so changing the duration never changes the
    server end date. *)
Theorem serverEndDate_is_serverStartDate
    (localOffset : Z -> Z) (e : EventData.t) :
  EventData.serverEndDate localOffset e
    = EventData.serverStartDate localOffset e
  /\ forall d : Z,
      EventData.serverEndDate localOffset (EventData.setDurationInSeconds d e)
      = EventData.serverEndDate localOffset e.
Proof.
  assert (H : forall x, EventData.serverEndDate localOffset x
                        = EventData.serverStartDate localOffset x).
  { intros x. unfold EventData.serverEndDate.
    destruct (EventData.serverStartDate localOffset x); [|reflexivity].
    destruct (negb (EventData.hasDuration x)); reflexivity. }
  split; [apply H|].
  intros d. rewrite !H, setDurationInSeconds_frame. reflexivity.
Qed.

(** C7, as the code has it: [setUtcStartDate] stores its argument as it
    is and stores the argument converted to local time as the local start
    date; when the argument has time spec UTC, so has the stored UTC
    start date and the assertion of [serverStartDate] holds. *)
Theorem setUtcStartDate_stores_argument
    (localOffset : Z -> Z) (dt : QDateTime.t) (e : EventData.t) :
  EventData.utcStartDate (EventData.setUtcStartDate dt e) = dt
  /\ EventData.localStartDate (EventData.setUtcStartDate dt e)
     = QDateTime.toLocalTime dt
  /\ (QDateTime.timeSpec dt = QDateTime.UTC ->
      QDateTime.timeSpec
        (EventData.utcStartDate (EventData.setUtcStartDate dt e))
      = QDateTime.UTC
      /\ EventData.serverStartDate localOffset
           (EventData.setUtcStartDate dt e) <> None).
Proof.
  repeat split; try assumption.
  apply serverStartDate_defined. assumption.
Qed.

Lemma setUtcStartDate_stores_argument_witness :
  QDateTime.timeSpec utcSample = QDateTime.UTC
  /\ QDateTime.timeSpec
       (EventData.utcStartDate
          (EventData.setUtcStartDate utcSample EventData.blank))
     = QDateTime.UTC
  /\ EventData.serverStartDate plusOneHour
       (EventData.setUtcStartDate utcSample EventData.blank) <> None.
Proof.
  split; [reflexivity|].
  apply (proj2 (proj2 (setUtcStartDate_stores_argument plusOneHour
                         utcSample EventData.blank))).
  reflexivity.
Defined.

(** C7 fails as stated: given a date-time in local time, the setter
    stores it with that time spec, and the assertion of [serverStartDate]
    fails. *)
Lemma setUtcStartDate_keeps_local_spec :
  QDateTime.timeSpec
    (EventData.utcStartDate
       (EventData.setUtcStartDate localSample EventData.blank))
  <> QDateTime.UTC
  /\ EventData.serverStartDate plusOneHour
       (EventData.setUtcStartDate localSample EventData.blank) = None.
Proof. split; [discriminate | reflexivity]. Qed.

(** C8: when the stored UTC start date has time spec UTC,
    [serverStartDate] returns the UTC start date moved forward by
    [serverDateTzOffsetMins * 60] seconds and then given that number of
    seconds as its UTC offset: the result displays the UTC date and time
    plus the offset, reports that offset, and denotes the instant of the
    UTC start date.  For an offset within [qint16] the product fits an
    [int]. *)
Theorem serverStartDate_server_view
    (localOffset : Z -> Z) (e : EventData.t) :
  QDateTime.timeSpec (EventData.utcStartDate e) = QDateTime.UTC ->
  let secs := EventData.serverDateTzOffsetMins e * 60 in
  let utc := EventData.utcStartDate e in
  (exists result,
      EventData.serverStartDate localOffset e = Some result
      /\ result = QDateTime.setUtcOffset localOffset secs
                    (QDateTime.addSecs secs utc)
      /\ QDateTime.wallClock localOffset result
         = QDateTime.wallClock localOffset utc + 1000 * secs
      /\ QDateTime.utcOffset localOffset result = secs
      /\ QDateTime.msecs result = QDateTime.msecs utc)
  /\ (-32768 <= EventData.serverDateTzOffsetMins e <= 32767 ->
      -2147483648 <= secs <= 2147483647).
Proof.
  intros Hspec secs utc.
  split; [|subst secs; lia].
  eexists. split.
  - unfold EventData.serverStartDate.
    unfold EventData.utcStartDate in Hspec. rewrite Hspec. reflexivity.
  - fold secs. split; [reflexivity|].
    subst utc. unfold EventData.utcStartDate in *.
    destruct (EventData.m_utcStartDate e) as [ms sp off].
    simpl in Hspec. subst sp. clearbody secs.
    unfold QDateTime.setUtcOffset, QDateTime.wallClock, QDateTime.utcOffset,
      QDateTime.addSecs.
    cbn [QDateTime.msecs QDateTime.timeSpec QDateTime.offset].
    destruct (Z.eqb_spec secs 0) as [E|E];
      cbn [QDateTime.msecs QDateTime.timeSpec QDateTime.offset];
      repeat split; lia.
Qed.

Lemma serverStartDate_server_view_witness :
  QDateTime.timeSpec (EventData.utcStartDate westEvent) = QDateTime.UTC
  /\ (exists result,
        EventData.serverStartDate plusOneHour westEvent = Some result
        /\ QDateTime.utcOffset plusOneHour result = -18000
        /\ QDateTime.wallClock plusOneHour result = 1000 - 18000000
        /\ QDateTime.msecs result = 1000)
  /\ -2147483648 <= -18000 <= 2147483647.
Proof.
  split; [reflexivity|].
  destruct (serverStartDate_server_view plusOneHour westEvent eq_refl)
    as ((r & H1 & _ & H2 & H3 & H4) & Hfit).
  split.
  - exists r. repeat split; assumption.
  - apply Hfit. vm_compute. split; discriminate.
Defined.

(* ------------------------------------------------------------------ *)
(** ** Level and type codes *)

(** C6: each level code, assigned to an [EventLevel], and each type code,
    assigned to an [EventType], gives through [uiString] the translation
    of its display name; with no translation installed that is the
    display name itself. *)
Theorem codes_to_display_names :
  (forall translate : Translator,
      Forall (fun p => EventLevel.uiString translate
                         (value (EventLevel.assign (fst p)))
                       = translate "EventLevel" (snd p)) levelNames
      /\ Forall (fun p => EventType.uiString translate
                            (value (EventType.assign (fst p)))
                          = translate "EventType" (snd p)) typeNames)
  /\ Forall (fun p => EventLevel.uiString sourceText
                        (value (EventLevel.assign (fst p))) = snd p)
            levelNames
  /\ Forall (fun p => EventType.uiString sourceText
                        (value (EventType.assign (fst p))) = snd p)
            typeNames.
Proof.
  split; [intros translate; split|split];
    repeat (constructor; [reflexivity|]); constructor.
Qed.

(** The level parser: a code outside [EventLevel.codes] gives Info. *)
Lemma level_default (str : string) :
  ~ In str EventLevel.codes -> EventLevel.assign str = (EventLevel.Info, []).
Proof.
  intros H. unfold EventLevel.assign, EventLevel.codes in *.
  repeat match goal with
    | |- context [?s == ?c] =>
        destruct (String.eqb_spec s c);
        [exfalso; apply H; simpl; auto 10 |]
    end.
  reflexivity.
Qed.

(** The type parser: a code outside [EventType.codes] gives UnknownType. *)
Lemma type_default (str : string) :
  ~ In str EventType.codes ->
  EventType.assign str = (EventType.UnknownType, []).
Proof.
  intros H. unfold EventType.assign, EventType.codes in *.
  repeat match goal with
    | |- context [?s == ?c] =>
        destruct (String.eqb_spec s c);
        [exfalso; apply H; simpl; auto 20 |]
    end.
  reflexivity.
Qed.

(** Neither parser ever logs. *)
Lemma assign_logs_nothing (str : string) :
  logged (EventLevel.assign str) = [] /\ logged (EventType.assign str) = [].
Proof.
  unfold EventLevel.assign, EventType.assign.
  split;
    repeat match goal with
      | |- context [if ?b then _ else _] => destruct b
      end; reflexivity.
Qed.

(* ------------------------------------------------------------------ *)
(** ** Locations *)

Section Locations.

Variable toUInt : string -> option Z.

Lemma mid_camera (suffix : string) :
  QString.startsWith ("camera-" ++ suffix) "camera-" = true
  /\ QString.mid 7 ("camera-" ++ suffix) = suffix.
Proof.
  split; [|reflexivity].
  unfold QString.startsWith. simpl. destruct suffix; reflexivity.
Qed.

(** The three outcomes of [setLocation], by the shape of the input. *)
Lemma setLocation_cases (location : string) (e : EventData.t) :
  EventData.setLocation toUInt location e =
  if QString.startsWith location "camera-" then
    match toUInt (QString.mid 7 location) with
    | Some v => (EventData.setLocationId (int_of_uint v) e, [])
    | None => (EventData.setLocationId (-1) e,
               [EventData.invalidLocation location])
    end
  else if location == "system"
       then (EventData.setLocationId (-1) e, [])
       else (EventData.setLocationId (-1) e,
             [EventData.invalidLocation location]).
Proof.
  unfold EventData.setLocation.
  destruct (QString.startsWith location "camera-").
  - destruct (toUInt (QString.mid 7 location)); reflexivity.
  - destruct (location == "system"); reflexivity.
Qed.

(** Everything but [system] and an accepted [camera-] string gives -1
    and one warning that quotes the input. *)
Lemma setLocation_unrecognized (location : string) (e : EventData.t) :
  recognizedLocation toUInt location = false ->
  EventData.setLocation toUInt location e
  = (EventData.setLocationId (-1) e, [EventData.invalidLocation location]).
Proof.
  unfold recognizedLocation. rewrite setLocation_cases.
  destruct (QString.startsWith location "camera-"),
    (toUInt (QString.mid 7 location)), (location == "system");
    simpl; congruence.
Qed.

(** Recognized strings are taken silently. *)
Lemma setLocation_recognized (location : string) (e : EventData.t) :
  recognizedLocation toUInt location = true ->
  logged (EventData.setLocation toUInt location e) = [].
Proof.
  unfold recognizedLocation. rewrite setLocation_cases.
  destruct (QString.startsWith location "camera-"),
    (toUInt (QString.mid 7 location)), (location == "system");
    simpl; congruence.
Qed.

Lemma setLocation_system (e : EventData.t) :
  EventData.setLocation toUInt "system" e
  = (EventData.setLocationId (-1) e, []).
Proof. reflexivity. Qed.

Lemma int_of_uint_small (v : Z) :
  0 <= v <= 2147483647 -> int_of_uint v = v.
Proof.
  intros H. unfold int_of_uint.
  rewrite Z.mod_small by lia.
  destruct (Z.ltb_spec v 2147483648); lia.
Qed.

Lemma int_of_uint_large (v : Z) :
  2147483648 <= v <= 4294967295 -> int_of_uint v = v - 4294967296.
Proof.
  intros H. unfold int_of_uint.
  rewrite Z.mod_small by lia.
  destruct (Z.ltb_spec v 2147483648); lia.
Qed.

(** [camera-<n>] with [n] within the range of [int] gives [n]. *)
Lemma setLocation_camera (suffix : string) (v : Z) (e : EventData.t) :
  toUInt suffix = Some v ->
  0 <= v <= 2147483647 ->
  EventData.setLocation toUInt ("camera-" ++ suffix) e
  = (EventData.setLocationId v e, []).
Proof.
  intros Hv Hr. rewrite setLocation_cases.
  destruct (mid_camera suffix) as [-> ->].
  rewrite Hv, int_of_uint_small by assumption. reflexivity.
Qed.

(** [camera-<n>] with [n] above the range of [int] but within that of
    [uint] gives the negative number [n - 2^32], without a warning. *)
Lemma setLocation_camera_wraps (suffix : string) (v : Z) (e : EventData.t) :
  toUInt suffix = Some v ->
  2147483648 <= v <= 4294967295 ->
  EventData.setLocation toUInt ("camera-" ++ suffix) e
  = (EventData.setLocationId (v - 4294967296) e, []).
Proof.
  intros Hv Hr. rewrite setLocation_cases.
  destruct (mid_camera suffix) as [-> ->].
  rewrite Hv, int_of_uint_large by assumption. reflexivity.
Qed.

End Locations.

(** C2, as the code has it: an unrecognized level code gives Info and an
    unrecognized type code gives UnknownType, both without any log line
    (neither parser logs at all); an unrecognized location gives location
    id -1 and exactly one warning, which quotes the input. *)
Theorem unrecognized_codes_default
    (toUInt : string -> option Z) (str : string) (e : EventData.t) :
  (~ In str EventLevel.codes ->
     EventLevel.assign str = (EventLevel.Info, []))
  /\ (~ In str EventType.codes ->
     EventType.assign str = (EventType.UnknownType, []))
  /\ (recognizedLocation toUInt str = false ->
     EventData.locationId (value (EventData.setLocation toUInt str e)) = -1
     /\ EventData.setLocation toUInt str e
        = (EventData.setLocationId (-1) e, [EventData.invalidLocation str]))
  /\ logged (EventLevel.assign str) = []
  /\ logged (EventType.assign str) = [].
Proof.
  split; [apply level_default|].
  split; [apply type_default|].
  split; [|apply assign_logs_nothing].
  intros H. rewrite (setLocation_unrecognized toUInt str e H).
  split; reflexivity.
Qed.

Lemma unrecognized_codes_default_witness :
  EventLevel.assign "bogus" = (EventLevel.Info, [])
  /\ EventType.assign "bogus" = (EventType.UnknownType, [])
  /\ EventData.setLocation QString.toUInt "bogus" EventData.blank
     = (EventData.setLocationId (-1) EventData.blank,
        [EventData.invalidLocation "bogus"]).
Proof.
  destruct (unrecognized_codes_default QString.toUInt "bogus" EventData.blank)
    as (Hl & Ht & Hloc & _).
  split; [apply Hl; simpl; intuition discriminate|].
  split; [apply Ht; simpl; intuition discriminate|].
  apply Hloc. reflexivity.
Defined.

(** C2 fails as stated: "bogus" is not a level code, the level parser
    returns Info for it, and no log line is written. *)
Lemma unrecognized_level_is_not_logged :
  ~ In "bogus" EventLevel.codes
  /\ value (EventLevel.assign "bogus") = EventLevel.Info
  /\ ~ (exists line, In line (logged (EventLevel.assign "bogus"))).
Proof.
  split; [simpl; intuition discriminate|].
  split; [reflexivity|].
  intros [line H]. exact H.
Qed.

(** C3 at the top of the [uint] range: the suffixes 4294967295 and
    3000000000 are accepted by the conversion, and the location id, an
    [int], becomes -1 and -1294967296, each without a warning. *)
Theorem setLocation_above_int_range (e : EventData.t) :
  QString.toUInt "4294967295" = Some 4294967295
  /\ EventData.setLocation QString.toUInt "camera-4294967295" e
     = (EventData.setLocationId (-1) e, [])
  /\ QString.toUInt "3000000000" = Some 3000000000
  /\ EventData.setLocation QString.toUInt "camera-3000000000" e
     = (EventData.setLocationId (-1294967296) e, []).
Proof. repeat split. Qed.

(* ------------------------------------------------------------------ *)
(** ** What a duration string says *)

(** Case analysis for the blocks of [uiDuration] that keeps the outcome
    of every size test as a hypothesis. *)
Ltac duration_cases :=
  repeat match goal with
    | |- context [if ?a <=? ?b then _ else _] => destruct (Z.leb_spec a b)
    | |- context [QString.isEmpty (EventData.durationWord _ _ _)] =>
        rewrite durationWord_nonempty
    | |- context [negb (?a =? 0)] => destruct (Z.eqb_spec a 0)
    | _ => progress cbn [negb orb QString.isEmpty Z.add Z.eqb Pos.add
                         Pos.succ Pos.eqb]
    end.

Ltac proper_terms :=
  unfold properTerm, lastUnit, termsValue;
  cbn [fst snd last fold_right unitSeconds descending];
  repeat match goal with
    | |- _ /\ _ => split
    | |- Forall _ (_ :: _) => constructor
    | |- Forall _ [] => constructor
    | |- True => exact I
    | |- _ < _ -> _ => intro
    end;
  cbn [fst snd unitSeconds];
  try (Z.quot_rem_to_equations; lia).

Ltac unit_of w :=
  lazymatch w with
  | "day" => constr:(Day)
  | "hour" => constr:(Hour)
  | "minute" => constr:(Minute)
  | "second" => constr:(Second)
  end.

(** Reads the terms off the calls of [durationWord] in the goal. *)
Ltac shown_terms :=
  lazymatch goal with
  | |- exists _, EventData.durationWord
                   (EventData.durationWord "" ?a ?v) ?b ?w = _ /\ _ =>
      let x := unit_of v in
      let y := unit_of w in
      exists [(a, x); (b, y)]
  | |- exists _, EventData.durationWord "" ?a ?v = _ /\ _ =>
      let x := unit_of v in
      exists [(a, x)]
  end;
  split; [reflexivity | proper_terms].

(** Every duration that is not in progress is shown as terms that are
    proper, ordered from the larger unit to the smaller, and that stand
    for the duration cut down to a multiple of the last unit shown. *)
Lemma uiDuration_shape (translate : Translator) (e : EventData.t) :
  EventData.inProgress e = false ->
  exists terms,
    EventData.uiDuration translate e = render terms
    /\ Forall properTerm terms
    /\ descending terms
    /\ termsValue terms <= qMax 1 (EventData.durationInSeconds e)
       < termsValue terms + unitSeconds (lastUnit terms)
    /\ (qMax 1 (EventData.durationInSeconds e) < 3600 ->
        termsValue terms = qMax 1 (EventData.durationInSeconds e)).
Proof.
  intros Hp. unfold EventData.uiDuration. rewrite Hp.
  pose proof (qMax_spec 1 (EventData.durationInSeconds e)) as Hd.
  assert (H1 : 1 <= qMax 1 (EventData.durationInSeconds e)) by lia.
  clear Hd. generalize dependent (qMax 1 (EventData.durationInSeconds e)).
  intros d H1.
  unfold EventData.uiDuration_hours, EventData.uiDuration_minutes,
    EventData.uiDuration_seconds.
  cbv zeta.
  duration_cases; shown_terms.
Qed.

Lemma fold_nonempty terms : forall s,
  QString.isEmpty s = false ->
  QString.isEmpty
    (fold_left
       (fun s t => EventData.durationWord s (fst t) (unitWord (snd t)))
       terms s) = false.
Proof.
  induction terms as [|u terms IH]; intros s Hs; cbn [fold_left];
    [exact Hs | apply IH, durationWord_nonempty].
Qed.

(** Never an empty string, never a count of zero, never "24 hours" or
    "60 minutes": a duration that is not in progress is shown as terms
    whose counts are at least 1 and below the size of the next unit,
    larger units first. *)
Theorem uiDuration_terms_are_proper
    (translate : Translator) (e : EventData.t) :
  EventData.inProgress e = false ->
  QString.isEmpty (EventData.uiDuration translate e) = false
  /\ exists terms,
      EventData.uiDuration translate e = render terms
      /\ terms <> []
      /\ Forall properTerm terms
      /\ descending terms.
Proof.
  intros Hp.
  destruct (uiDuration_shape translate e Hp) as (terms & Hr & Hf & Hd & Hv & _).
  assert (Hne : terms <> []).
  { intros ->. cbn in Hv. pose proof (qMax_spec 1 (EventData.durationInSeconds e)).
    lia. }
  split; [|exists terms; auto].
  rewrite Hr. destruct terms as [|t terms]; [congruence|].
  unfold render. cbn [fold_left].
  apply fold_nonempty, durationWord_nonempty.
Qed.

Lemma uiDuration_terms_are_proper_witness :
  EventData.inProgress (ofDuration 86399) = false
  /\ QString.isEmpty (EventData.uiDuration sourceText (ofDuration 86399))
     = false.
Proof.
  split; [reflexivity|].
  apply (uiDuration_terms_are_proper sourceText (ofDuration 86399)).
  reflexivity.
Defined.

(** The duration shown is the duration (at least one second) rounded
    down to a multiple of the last unit shown: what is left out is less
    than one such unit.  Below one hour nothing is left out. *)
Theorem uiDuration_rounds_down
    (translate : Translator) (e : EventData.t) :
  EventData.inProgress e = false ->
  let d := Z.max 1 (EventData.durationInSeconds e) in
  exists terms,
    EventData.uiDuration translate e = render terms
    /\ termsValue terms <= d < termsValue terms + unitSeconds (lastUnit terms)
    /\ (d < 3600 -> termsValue terms = d).
Proof.
  intros Hp d. subst d. rewrite <- qMax_spec.
  destruct (uiDuration_shape translate e Hp) as (terms & Hr & _ & _ & Hv & Hx).
  exists terms. auto.
Qed.

Lemma uiDuration_rounds_down_witness :
  EventData.inProgress (ofDuration 3725) = false
  /\ exists terms,
      EventData.uiDuration sourceText (ofDuration 3725) = render terms
      /\ termsValue terms <= 3725
         < termsValue terms + unitSeconds (lastUnit terms).
Proof.
  split; [reflexivity|].
  destruct (uiDuration_rounds_down sourceText (ofDuration 3725) eq_refl)
    as (terms & Hr & Hv & _).
  exists terms. split; [exact Hr | exact Hv].
Defined.

(** Whatever negative number is given to the duration setter, the event
    is shown as in progress; for any other number the string does not
    depend on the translator or on the other fields of the event. *)
Theorem uiDuration_after_setter
    (translate : Translator) (d : Z) (e : EventData.t) :
  (d < 0 ->
   EventData.uiDuration translate (EventData.setDurationInSeconds d e)
   = translate "EventData" "In progress")
  /\ (0 <= d ->
      EventData.uiDuration translate (EventData.setDurationInSeconds d e)
      = EventData.uiDuration sourceText (ofDuration d))
  /\ EventData.uiDuration translate (EventData.setInProgress e)
     = translate "EventData" "In progress".
Proof.
  unfold ofDuration, EventData.setInProgress.
  rewrite !setDurationInSeconds_frame.
  unfold EventData.uiDuration, EventData.inProgress,
    EventData.durationInSeconds, EventData.with_duration.
  cbn [EventData.m_durationInSeconds].
  repeat split.
  - intros H. destruct (Z.ltb_spec (Z.max d (-1)) 0); [reflexivity | lia].
  - intros H. destruct (Z.ltb_spec (Z.max d (-1)) 0); [lia | reflexivity].
Qed.

Lemma uiDuration_after_setter_witness :
  EventData.uiDuration sourceText
    (EventData.setDurationInSeconds (-7) EventData.blank) = "In progress"
  /\ EventData.uiDuration sourceText
       (EventData.setDurationInSeconds 61 EventData.blank)
     = EventData.uiDuration sourceText (ofDuration 61).
Proof.
  destruct (uiDuration_after_setter sourceText (-7) EventData.blank)
    as (Hn & _ & _).
  destruct (uiDuration_after_setter sourceText 61 EventData.blank)
    as (_ & Hp & _).
  split; [apply Hn | apply Hp]; lia.
Defined.

(* ------------------------------------------------------------------ *)
(** ** End dates and the three views of the start *)

Lemma localEndDate_msecs (e : EventData.t) :
  QDateTime.msecs (EventData.localEndDate e)
  = QDateTime.msecs (EventData.localStartDate e)
    + 1000 * Z.max 0 (EventData.durationInSeconds e).
Proof.
  unfold EventData.localEndDate, EventData.localStartDate,
    EventData.durationInSeconds, QDateTime.addSecs.
  rewrite qMax_spec. reflexivity.
Qed.

Lemma serverEndDate_unfold (localOffset : Z -> Z) (e : EventData.t) :
  EventData.serverEndDate localOffset e
  = EventData.serverStartDate localOffset e.
Proof.
  unfold EventData.serverEndDate.
  destruct (EventData.serverStartDate localOffset e); [|reflexivity].
  destruct (negb (EventData.hasDuration e)); reflexivity.
Qed.

(** The server start date of an event whose UTC start date is in UTC. *)
Lemma serverStartDate_utc (localOffset : Z -> Z) (e : EventData.t) :
  QDateTime.timeSpec (EventData.utcStartDate e) = QDateTime.UTC ->
  exists r,
    EventData.serverStartDate localOffset e = Some r
    /\ QDateTime.msecs r = QDateTime.msecs (EventData.utcStartDate e)
    /\ QDateTime.wallClock localOffset r
       = QDateTime.msecs (EventData.utcStartDate e)
         + 1000 * (EventData.serverDateTzOffsetMins e * 60).
Proof.
  unfold EventData.utcStartDate, EventData.serverStartDate.
  intros Hspec. rewrite Hspec. cbn [QDateTime.specEqb].
  eexists. split; [reflexivity|].
  destruct (EventData.m_utcStartDate e) as [ms sp off].
  cbn [QDateTime.timeSpec] in Hspec. subst sp.
  generalize (EventData.serverDateTzOffsetMins e * 60). intros secs.
  unfold QDateTime.setUtcOffset, QDateTime.wallClock, QDateTime.utcOffset,
    QDateTime.addSecs.
  cbn [QDateTime.msecs QDateTime.timeSpec QDateTime.offset].
  destruct (Z.eqb_spec secs 0) as [E|E];
    cbn [QDateTime.msecs QDateTime.timeSpec QDateTime.offset];
    split; lia.
Qed.

(** The local end date is the local start date moved by the duration when
    there is one and not at all otherwise (duration 0 or in progress): it
    is never before the start, and it keeps the time spec of the start. *)
Theorem localEndDate_after_start (e : EventData.t) :
  QDateTime.msecs (EventData.localEndDate e)
  = QDateTime.msecs (EventData.localStartDate e)
    + 1000 * Z.max 0 (EventData.durationInSeconds e)
  /\ QDateTime.msecs (EventData.localStartDate e)
     <= QDateTime.msecs (EventData.localEndDate e)
  /\ QDateTime.timeSpec (EventData.localEndDate e)
     = QDateTime.timeSpec (EventData.localStartDate e)
  /\ (EventData.hasDuration e = false ->
      EventData.localEndDate e = EventData.localStartDate e).
Proof.
  unfold EventData.localEndDate, EventData.localStartDate,
    EventData.hasDuration, EventData.durationInSeconds, QDateTime.addSecs.
  rewrite qMax_spec. cbn [QDateTime.msecs QDateTime.timeSpec].
  repeat split; try lia.
  intros H. apply Z.ltb_ge in H.
  replace (Z.max 0 (EventData.m_durationInSeconds e)) with 0 by lia.
  destruct (EventData.m_localStartDate e) as [ms sp off].
  cbn [QDateTime.msecs QDateTime.timeSpec QDateTime.offset].
  f_equal. lia.
Qed.

Lemma localEndDate_after_start_witness :
  EventData.hasDuration (EventData.setInProgress EventData.blank) = false
  /\ EventData.localEndDate (EventData.setInProgress EventData.blank)
     = EventData.localStartDate (EventData.setInProgress EventData.blank).
Proof.
  split; [reflexivity|].
  apply (localEndDate_after_start (EventData.setInProgress EventData.blank)).
  reflexivity.
Defined.

(** After [setUtcStartDate] with a UTC date-time and
    [setServerDateTzOffsetMins], in either order, the UTC, the local and
    the server start date denote one instant; the server view displays a
    time ahead of the local view by the server offset less the local
    offset. *)
Theorem start_dates_agree
    (localOffset : Z -> Z) (dt : QDateTime.t) (mins : Z) (e : EventData.t) :
  QDateTime.timeSpec dt = QDateTime.UTC ->
  let e1 := EventData.setServerDateTzOffsetMins mins
              (EventData.setUtcStartDate dt e) in
  let e2 := EventData.setUtcStartDate dt
              (EventData.setServerDateTzOffsetMins mins e) in
  e1 = e2
  /\ exists server,
      EventData.serverStartDate localOffset e1 = Some server
      /\ QDateTime.msecs server = QDateTime.msecs dt
      /\ QDateTime.msecs (EventData.localStartDate e1) = QDateTime.msecs dt
      /\ QDateTime.msecs (EventData.utcStartDate e1) = QDateTime.msecs dt
      /\ QDateTime.wallClock localOffset server
         - QDateTime.wallClock localOffset (EventData.localStartDate e1)
         = 1000 * (mins * 60 - localOffset (QDateTime.msecs dt)).
Proof.
  intros Hspec e1 e2. split; [reflexivity|].
  assert (Hs : QDateTime.timeSpec (EventData.utcStartDate e1) = QDateTime.UTC)
    by exact Hspec.
  destruct (serverStartDate_utc localOffset e1 Hs) as (r & Hr & Hm & Hw).
  exists r. split; [exact Hr|].
  split; [exact Hm|]. split; [reflexivity|]. split; [reflexivity|].
  rewrite Hw.
  change (EventData.utcStartDate e1) with dt.
  change (EventData.localStartDate e1) with (QDateTime.toLocalTime dt).
  change (EventData.serverDateTzOffsetMins e1) with mins.
  unfold QDateTime.wallClock, QDateTime.utcOffset, QDateTime.toLocalTime.
  cbn [QDateTime.msecs QDateTime.timeSpec]. lia.
Qed.

Lemma start_dates_agree_witness :
  QDateTime.timeSpec utcSample = QDateTime.UTC
  /\ exists server,
      EventData.serverStartDate plusOneHour westEvent = Some server
      /\ QDateTime.msecs server = QDateTime.msecs utcSample.
Proof.
  split; [reflexivity|].
  destruct (start_dates_agree plusOneHour utcSample (-300) EventData.blank
              eq_refl) as (_ & r & Hr & Hm & _).
  exists r. split; [exact Hr | exact Hm].
Defined.

(** For an event with a duration the two end dates disagree: the local
    end date is the duration after the instant of the start, the server
    end date is at the instant of the start. *)
Theorem end_dates_disagree
    (localOffset : Z -> Z) (dt : QDateTime.t) (d : Z) (e : EventData.t) :
  QDateTime.timeSpec dt = QDateTime.UTC ->
  0 < d ->
  let e' := EventData.setDurationInSeconds d (EventData.setUtcStartDate dt e) in
  exists server,
    EventData.serverEndDate localOffset e' = Some server
    /\ QDateTime.msecs server = QDateTime.msecs dt
    /\ QDateTime.msecs (EventData.localEndDate e')
       = QDateTime.msecs server + 1000 * d.
Proof.
  intros Hspec Hd e'.
  assert (He : e' = EventData.with_duration d (EventData.setUtcStartDate dt e)).
  { subst e'. rewrite setDurationInSeconds_frame. f_equal. lia. }
  assert (Hs : QDateTime.timeSpec (EventData.utcStartDate e') = QDateTime.UTC).
  { rewrite He. exact Hspec. }
  destruct (serverStartDate_utc localOffset e' Hs) as (r & Hr & Hm & _).
  exists r. rewrite serverEndDate_unfold.
  split; [exact Hr|].
  split; [rewrite Hm, He; reflexivity|].
  rewrite localEndDate_msecs, Hm, He.
  unfold EventData.localStartDate, EventData.utcStartDate,
    EventData.durationInSeconds, EventData.with_duration,
    EventData.setUtcStartDate, QDateTime.toLocalTime.
  cbn [EventData.m_localStartDate EventData.m_utcStartDate
       EventData.m_durationInSeconds QDateTime.msecs].
  lia.
Qed.

Lemma end_dates_disagree_witness :
  QDateTime.timeSpec utcSample = QDateTime.UTC
  /\ 0 < 30
  /\ exists server,
      EventData.serverEndDate plusOneHour
        (EventData.setDurationInSeconds 30
           (EventData.setUtcStartDate utcSample EventData.blank))
      = Some server
      /\ QDateTime.msecs
           (EventData.localEndDate
              (EventData.setDurationInSeconds 30
                 (EventData.setUtcStartDate utcSample EventData.blank)))
         = QDateTime.msecs server + 1000 * 30.
Proof.
  split; [reflexivity|]. split; [lia|].
  destruct (end_dates_disagree plusOneHour utcSample 30 EventData.blank
              eq_refl eq_refl) as (r & Hr & _ & Hl).
  exists r. split; [exact Hr | exact Hl].
Defined.

(* ------------------------------------------------------------------ *)
(** ** What the parsers and display names tell apart *)

Ltac string_cases :=
  repeat match goal with
    | |- context [?s == ?c] =>
        destruct (String.eqb_spec s c); [subst s|]
    end.

(** The type parser answers UnknownType exactly for the strings that are
    not among its codes, and no two codes give the same type. *)
Theorem type_codes_are_told_apart :
  (forall str,
      value (EventType.assign str) = EventType.UnknownType
      <-> ~ In str EventType.codes)
  /\ (forall a b,
        In a EventType.codes -> In b EventType.codes ->
        value (EventType.assign a) = value (EventType.assign b) -> a = b).
Proof.
  split.
  - intros str. split.
    + intros H Hin. unfold EventType.codes in Hin. cbn [In] in Hin.
      repeat (destruct Hin as [<-|Hin]; [discriminate H|]).
      exact Hin.
    + intros H. rewrite type_default by exact H. reflexivity.
  - intros a b Ha Hb. unfold EventType.codes in *. cbn [In] in *.
    repeat (destruct Ha as [<-|Ha]; [|]); try contradiction;
      repeat (destruct Hb as [<-|Hb]; [|]); try contradiction;
      intros H; solve [reflexivity | discriminate H].
Qed.

Lemma type_codes_are_told_apart_witness :
  In "boot" EventType.codes /\ In "reboot" EventType.codes
  /\ (value (EventType.assign "boot") = value (EventType.assign "reboot")
      -> "boot" = "reboot")
  /\ (~ In "Boot" EventType.codes
      -> value (EventType.assign "Boot") = EventType.UnknownType).
Proof.
  destruct type_codes_are_told_apart as [Hu Hi].
  assert (H1 : In "boot" EventType.codes) by (simpl; auto 20).
  assert (H2 : In "reboot" EventType.codes) by (simpl; auto 20).
  split; [exact H1|]. split; [exact H2|].
  split; [apply Hi; assumption | apply Hu].
Defined.

(** The strings behind each level: Warning and Critical have one code
    each, Alarm has two, and Info stands both for its code and for every
    string that is not a code, so a parsed Info does not tell whether the
    input was valid. *)
Theorem level_preimages (str : string) :
  (value (EventLevel.assign str) = EventLevel.Warning <-> str = "warn")
  /\ (value (EventLevel.assign str) = EventLevel.Alarm
      <-> str = "alrm" \/ str = "alarm")
  /\ (value (EventLevel.assign str) = EventLevel.Critical
      <-> str = "critical")
  /\ (value (EventLevel.assign str) = EventLevel.Info
      <-> str = "info" \/ ~ In str EventLevel.codes).
Proof.
  unfold EventLevel.assign, EventLevel.codes. cbn [In].
  string_cases; cbn [orb value fst ret];
    repeat split; intros; try discriminate; try congruence;
    try (left; reflexivity); try (right; reflexivity);
    try (right; intuition congruence);
    try (intuition (try discriminate; try congruence)).
Qed.

(** With no translation installed, different levels have different
    display names and so have different types; "Unknown" is the name of
    UnknownType alone. *)
Theorem display_names_are_told_apart :
  (forall a b, EventLevel.uiString sourceText a
               = EventLevel.uiString sourceText b -> a = b)
  /\ (forall a b, EventType.uiString sourceText a
                  = EventType.uiString sourceText b -> a = b)
  /\ (forall a, EventType.uiString sourceText a = "Unknown"
                <-> a = EventType.UnknownType).
Proof.
  split; [|split].
  - intros [] []; intros H; solve [reflexivity | discriminate H].
  - intros [] []; intros H; solve [reflexivity | discriminate H].
  - intros []; split; intros H; solve [reflexivity | discriminate H].
Qed.

Lemma display_names_are_told_apart_witness :
  EventType.uiString sourceText EventType.SystemBoot
  = EventType.uiString sourceText EventType.SystemBoot
  /\ EventType.SystemBoot = EventType.SystemBoot.
Proof.
  split; [reflexivity|].
  apply (proj1 (proj2 display_names_are_told_apart)). reflexivity.
Defined.

(** Colours tell the levels apart in both modes; the [graphical] flag
    changes the colour of Warning only, which is black without it. *)
Theorem uiColor_tells_levels_apart :
  (forall graphical a b,
      EventLevel.uiColor graphical a = EventLevel.uiColor graphical b ->
      a = b)
  /\ (forall level,
        EventLevel.uiColor true level <> EventLevel.uiColor false level
        <-> level = EventLevel.Warning)
  /\ EventLevel.uiColor false EventLevel.Warning = QColor.black
  /\ (forall graphical level,
        EventLevel.uiColor graphical level = QColor.black
        <-> graphical = false /\ level = EventLevel.Warning).
Proof.
  split; [|split; [|split]].
  - intros [] [] []; intros H; solve [reflexivity | discriminate H].
  - intros []; split; intros H;
      solve [reflexivity | discriminate H | exfalso; apply H; reflexivity
            | discriminate].
  - reflexivity.
  - intros [] []; split; intros H;
      solve [split; reflexivity | discriminate H
            | destruct H; discriminate].
Qed.

Lemma uiColor_tells_levels_apart_witness :
  EventLevel.uiColor true EventLevel.Alarm
  = EventLevel.uiColor true EventLevel.Alarm
  /\ EventLevel.Alarm = EventLevel.Alarm.
Proof.
  split; [reflexivity|].
  apply (proj1 uiColor_tells_levels_apart true). reflexivity.
Defined.

(* ------------------------------------------------------------------ *)
(** ** Printing and reading back a number *)

Section NumberFacts.

Import QString.

Lemma digits_string_of_uint (u : Decimal.uint) : forall acc,
  digits acc (NilEmpty.string_of_uint u) = Some (uintValue acc u).
Proof.
  induction u; intros acc; cbn [NilEmpty.string_of_uint uintValue];
    try reflexivity;
    change (digits acc (String ?c ?t))
      with (if isDigit c then digits (10 * acc + digitValue c) t else None);
    apply IHu.
Qed.

Lemma uintValue_pos (u : Decimal.uint) : forall acc : positive,
  uintValue (Z.pos acc) u = Z.pos (Pos.of_uint_acc u acc).
Proof.
  induction u; intros acc; cbn [uintValue Pos.of_uint_acc];
    try reflexivity;
    rewrite <- IHu; f_equal; lia.
Qed.

Lemma uintValue_zero (u : Decimal.uint) :
  uintValue 0 u = Z.of_N (Pos.of_uint u).
Proof.
  induction u; cbn [uintValue Pos.of_uint]; try reflexivity;
    try exact IHu;
    cbn [Z.of_N]; rewrite <- uintValue_pos; reflexivity.
Qed.

(** [toUInt] reads back what [number] prints, for every [uint]. *)
Lemma toUInt_number (n : Z) :
  0 <= n <= UINT_MAX -> toUInt (number n) = Some n.
Proof.
  intros Hn. destruct n as [|p|p]; [reflexivity| |lia].
  unfold number, toUInt. cbn [Z.to_int NilZero.string_of_int].
  unfold NilZero.string_of_uint.
  pose proof (Unsigned.to_uint_nonnil p) as Hnil.
  pose proof (Unsigned.of_to p) as Hof.
  pose proof (digits_string_of_uint (Pos.to_uint p) 0) as Hd.
  rewrite uintValue_zero, Hof in Hd. cbn [Z.of_N] in Hd.
  destruct (Pos.to_uint p) eqn:E; try congruence;
    cbn [NilEmpty.string_of_uint] in *; rewrite Hd;
    destruct (Z.leb_spec (Z.pos p) UINT_MAX); solve [reflexivity | lia].
Qed.

End NumberFacts.

(* ------------------------------------------------------------------ *)
(** ** Locations, in and out *)

Lemma int_of_uint_range (v : Z) :
  -2147483648 <= int_of_uint v <= 2147483647.
Proof.
  unfold int_of_uint.
  pose proof (Z.mod_pos_bound v 4294967296 ltac:(lia)).
  destruct (Z.ltb_spec (v mod 4294967296) 2147483648); lia.
Qed.

(** Whatever the conversion function does, [setLocation] changes the
    location id and nothing else, the new id depends on the string alone
    and fits an [int], at most one warning is written, a warning always
    comes with the id -1, and no warning is written exactly for the
    recognized strings. *)
Theorem setLocation_outcomes
    (toUInt : string -> option Z) (location : string) :
  exists id log,
    (forall e, EventData.setLocation toUInt location e
               = (EventData.setLocationId id e, log))
    /\ -2147483648 <= id <= 2147483647
    /\ (log = [] \/ (log = [EventData.invalidLocation location] /\ id = -1))
    /\ (log = [] <-> recognizedLocation toUInt location = true).
Proof.
  unfold recognizedLocation.
  destruct (QString.startsWith location "camera-") eqn:Hc;
    [destruct (toUInt (QString.mid 7 location)) as [v|] eqn:Hv
    |destruct (location == "system") eqn:Hs].
  - exists (int_of_uint v), [].
    split; [intros e; rewrite setLocation_cases, Hc, Hv; reflexivity|].
    split; [apply int_of_uint_range|]. split; [left; reflexivity|].
    split; reflexivity.
  - exists (-1), [EventData.invalidLocation location].
    split; [intros e; rewrite setLocation_cases, Hc, Hv; reflexivity|].
    split; [lia|]. split; [right; split; reflexivity|].
    split; discriminate.
  - exists (-1), [].
    split; [intros e; rewrite setLocation_cases, Hc, Hs; reflexivity|].
    split; [lia|]. split; [left; reflexivity|].
    split; reflexivity.
  - exists (-1), [EventData.invalidLocation location].
    split; [intros e; rewrite setLocation_cases, Hc, Hs; reflexivity|].
    split; [lia|]. split; [right; split; reflexivity|].
    split; discriminate.
Qed.

(** What [uiLocation] shows for a location that is not a camera of the
    server and is not negative reads back through [setLocation] as that
    location, without a warning, for every id an [int] can hold. *)
Theorem uiLocation_reads_back
    (translate : Translator) (server : DVRServer.t) (id : Z)
    (e : EventData.t) :
  DVRServer.getCamera server id = None ->
  0 <= id <= 2147483647 ->
  EventData.uiLocation translate (Some server) id
  = "camera-" ++ QString.number id
  /\ EventData.setLocation QString.toUInt
       (EventData.uiLocation translate (Some server) id) e
     = (EventData.setLocationId id e, []).
Proof.
  intros Hcam Hid.
  assert (Hu : EventData.uiLocation translate (Some server) id
               = "camera-" ++ QString.number id).
  { unfold EventData.uiLocation. rewrite Hcam.
    destruct (Z.ltb_spec id 0); [lia | reflexivity]. }
  split; [exact Hu|].
  rewrite Hu. apply setLocation_camera; [|exact Hid].
  apply toUInt_number. unfold QString.UINT_MAX. lia.
Qed.

Lemma uiLocation_reads_back_witness :
  DVRServer.getCamera emptyServer 12 = None
  /\ 0 <= 12 <= 2147483647
  /\ EventData.setLocation QString.toUInt
       (EventData.uiLocation sourceText (Some emptyServer) 12)
       EventData.blank
     = (EventData.setLocationId 12 EventData.blank, []).
Proof.
  split; [reflexivity|]. split; [lia|].
  apply (uiLocation_reads_back sourceText emptyServer 12 EventData.blank);
    [reflexivity | lia].
Defined.

(** The name shown for a location: nothing without a server; the
    camera's display name whenever [locationCamera] finds a camera, also
    at a negative id; and, with no translation installed, an empty name
    only when the camera found has an empty display name. *)
Theorem uiLocation_names
    (translate : Translator) (server : DVRServer.t) (e : EventData.t) :
  EventData.uiLocation translate None (EventData.locationId e) = ""
  /\ EventData.locationCamera None e = None
  /\ (forall camera,
        EventData.locationCamera (Some server) e = Some camera ->
        EventData.uiLocation translate (Some server) (EventData.locationId e)
        = DVRServer.cameraDisplayName camera)
  /\ (EventData.uiLocation sourceText (Some server) (EventData.locationId e)
      = "" ->
      exists camera,
        EventData.locationCamera (Some server) e = Some camera
        /\ DVRServer.cameraDisplayName camera = "").
Proof.
  unfold EventData.uiLocation, EventData.locationCamera.
  split; [reflexivity|]. split; [reflexivity|]. split.
  - intros camera H. rewrite H. reflexivity.
  - destruct (DVRServer.getCamera server (EventData.locationId e))
      as [camera|].
    + intros H. exists camera. split; [reflexivity | exact H].
    + destruct (EventData.locationId e <? 0); discriminate.
Qed.

Lemma uiLocation_names_witness :
  (EventData.locationCamera (Some oneCameraServer)
     (EventData.setLocationId 3 EventData.blank)
   = Some {| DVRServer.cameraDisplayName := "Front door" |}
   /\ EventData.uiLocation sourceText (Some oneCameraServer)
        (EventData.locationId (EventData.setLocationId 3 EventData.blank))
      = "Front door")
  /\ (EventData.uiLocation sourceText (Some namelessCameraServer)
        (EventData.locationId (EventData.setLocationId 3 EventData.blank))
      = ""
      /\ exists camera,
          EventData.locationCamera (Some namelessCameraServer)
            (EventData.setLocationId 3 EventData.blank) = Some camera
          /\ DVRServer.cameraDisplayName camera = "").
Proof.
  split.
  - split; [reflexivity|].
    apply (proj1 (proj2 (proj2
             (uiLocation_names sourceText oneCameraServer
                (EventData.setLocationId 3 EventData.blank))))
             {| DVRServer.cameraDisplayName := "Front door" |}).
    reflexivity.
  - split; [reflexivity|].
    apply (proj2 (proj2 (proj2
             (uiLocation_names sourceText namelessCameraServer
                (EventData.setLocationId 3 EventData.blank))))).
    reflexivity.
Defined.

(* ------------------------------------------------------------------ *)
(** ** Status after the duration setter *)

(** Clamping keeps the sign of the argument: after the duration setter the
    event is in progress exactly for a negative argument, has a duration
    exactly for a positive one, and is never both; setting the duration
    again replaces it. *)
Theorem status_follows_sign (d : Z) (e : EventData.t) :
  EventData.inProgress (EventData.setDurationInSeconds d e) = (d <? 0)
  /\ EventData.hasDuration (EventData.setDurationInSeconds d e) = (0 <? d)
  /\ EventData.inProgress (EventData.setDurationInSeconds d e)
     && EventData.hasDuration (EventData.setDurationInSeconds d e) = false
  /\ forall d',
      EventData.setDurationInSeconds d' (EventData.setDurationInSeconds d e)
      = EventData.setDurationInSeconds d' e.
Proof.
  rewrite !setDurationInSeconds_frame.
  unfold EventData.inProgress, EventData.hasDuration,
    EventData.durationInSeconds, EventData.with_duration.
  cbn [EventData.m_durationInSeconds].
  destruct (Z.ltb_spec (Z.max d (-1)) 0), (Z.ltb_spec d 0),
    (Z.ltb_spec 0 (Z.max d (-1))), (Z.ltb_spec 0 d);
    try lia; repeat split; intros; rewrite ?setDurationInSeconds_frame;
    reflexivity.
Qed.
